(** * react-knob-headless: the value pipeline of the headless knob

    A shallow embedding of [KnobHeadless.tsx] (the headless slider-like
    control), of the steps, text and curve of the [KnobDisabled] demo knob
    that the same source file carries, and of [KnobBaseThumb.tsx] (the rotating
    thumb of the documentation site).

    JavaScript numbers are modelled by canonical rationals [Qc]: exact
    arithmetic, Leibniz equality, and every definition evaluates.  Rounding
    of IEEE doubles, NaN and infinities are outside the model. *)

From Stdlib Require Import QArith Qcanon Qround Lqa ZArith Lia String List Bool.
From Stdlib Require Import Ascii DecimalString.
Import ListNotations.

Local Open Scope Qc_scope.

(** ** Numbers *)

Definition number : Type := Qc.

Definition of_Z (z : Z) : number := Q2Qc (inject_Z z).

(** A decimal literal [n / d], e.g. [0.006] is [decimal 6 1000]. *)
Definition decimal (n : Z) (d : positive) : number := Q2Qc (n # d).

Definition half : number := decimal 1 2.

(** [Math.min] and [Math.max] on numbers. *)
Definition Math_min (a b : number) : number :=
  if Qclt_le_dec b a then b else a.

Definition Math_max (a b : number) : number :=
  if Qclt_le_dec a b then b else a.

(** ** The numeric helpers imported from [@dsp-ts/math] *)

Module DspMath.

(** Modelled from the spec: [clamp] of the external package [@dsp-ts/math]
    (imported by both source files, not part of them).  The spec uses it as
    [clamp(v, lo, hi)], the restriction of [v] to [[lo, hi]]. *)
Definition clamp (x lo hi : number) : number :=
  Math_max lo (Math_min hi x).

(** Modelled from the spec: [clamp01] of [@dsp-ts/math], written in the
    spec as [clamp(v, 0, 1)]. *)
Definition clamp01 (x : number) : number := clamp x 0 1.

(** Modelled from the spec: [mapTo01Linear] of [@dsp-ts/math], the spec's
    linear [toNormalized]: it clamps a raw value outside [[min, max]] and
    returns [(raw - min) / (max - min)]. *)
Definition mapTo01Linear (x min max : number) : number :=
  (clamp x min max - min) / (max - min).

(** Modelled from the spec: [mapFrom01Linear] of [@dsp-ts/math], the spec's
    linear [fromNormalized]: it clamps the position to [[0, 1]] first and
    returns [min + pos01 * (max - min)]. *)
Definition mapFrom01Linear (x min max : number) : number :=
  min + clamp01 x * (max - min).

End DspMath.

(** ** KnobHeadless.tsx *)

Module KnobHeadless.
Import DspMath.

Inductive Orientation : Type := horizontal | vertical.

(** The [axis] prop: ['x' | 'y' | 'xy']. *)
Inductive Axis : Type := axis_x | axis_y | axis_xy.

(** The axis lock handed to the gesture library: ['x' | 'y']; [None] is
    JavaScript's [undefined]. *)
Inductive DragAxis : Type := lock_x | lock_y.

Definition MapFn : Type := number -> number -> number -> number.

(** A per-frame movement [delta = [dx, dy]]. *)
Definition Delta : Type := (number * number)%type.

Definition axisDefault : Axis := axis_y.
Definition includeIntoTabOrderDefault : bool := false.
Definition disabledDefault : bool := false.
Definition mapTo01Default : MapFn := mapTo01Linear.
Definition mapFrom01Default : MapFn := mapFrom01Linear.

(** A destructuring default [x = d]: the default applies to an absent
    ([undefined]) prop. *)
Definition orDefault {A : Type} (o : option A) (d : A) : A :=
  match o with
  | Some a => a
  | None => d
  end.

Section Component.

(** The owner's state.  [onValueRawChange] is the owner's callback: calling
    it with a number is an update of the owner's state. *)
Context {Owner : Type}.

Record KnobHeadlessProps : Type := {
  valueRaw : number;
  valueMin : number;
  valueMax : number;
  dragSensitivity : number;
  valueRawRoundFn : number -> number;
  valueRawDisplayFn : number -> string;
  onValueRawChange : number -> Owner -> Owner;
  orientation : option Orientation;
  axis : option Axis;
  includeIntoTabOrder : option bool;
  disabled : option bool;
  mapTo01 : option MapFn;
  mapFrom01 : option MapFn
}.

Definition getTabIndex (includeIntoTabOrder disabled : bool) : Z :=
  if negb disabled && includeIntoTabOrder then 0%Z else (-1)%Z.

Definition getDragAxis (orientation : option Orientation) (axis : Axis)
  : option DragAxis :=
  match orientation with
  | Some o =>
      match o with
      | horizontal => Some lock_x
      | vertical => Some lock_y
      end
  | None =>
      match axis with
      | axis_xy => None
      | axis_x => Some lock_x
      | axis_y => Some lock_y
      end
  end.

Definition getAriaOrientation (orientation : option Orientation) (axis : Axis)
  : option Orientation :=
  match orientation with
  | Some o => Some o
  | None =>
      match axis with
      | axis_xy => None
      | axis_x => Some horizontal
      | axis_y => Some vertical
      end
  end.

(** *** The gesture library *)

(** The options object given to [useDrag]. *)
Record DragConfig : Type := {
  pointer_keys : bool;
  drag_axis : option DragAxis;
  enabled : bool
}.

(** Modelled from the spec: the axis lock of the external package
    [@use-gesture/react].  The movement that reaches the handler is
    restricted to the configured axis: [x] only, [y] only, or both. *)
Definition lockDelta (a : option DragAxis) (movement : Delta) : Delta :=
  match a with
  | Some lock_x => (fst movement, 0)
  | Some lock_y => (0, snd movement)
  | None => movement
  end.

(** Modelled from the spec: [useDrag] of the external package
    [@use-gesture/react].  The binding it returns processes one movement
    frame: a disabled binding is inert, an enabled one calls the handler
    with the movement restricted to the configured axis. *)
Definition useDrag (handler : Delta -> Owner -> Owner) (config : DragConfig)
  : Delta -> Owner -> Owner :=
  fun movement owner =>
    if enabled config
    then handler (lockDelta (drag_axis config) movement) owner
    else owner.

(** *** The component *)

Section Render.

Variable props : KnobHeadlessProps.

(** The destructured props, defaults applied. *)
Definition axis_ : Axis := orDefault (axis props) axisDefault.
Definition includeIntoTabOrder_ : bool :=
  orDefault (includeIntoTabOrder props) includeIntoTabOrderDefault.
Definition disabled_ : bool := orDefault (disabled props) disabledDefault.
Definition mapTo01_ : MapFn := orDefault (mapTo01 props) mapTo01Default.
Definition mapFrom01_ : MapFn := orDefault (mapFrom01 props) mapFrom01Default.

Definition value : number := valueRawRoundFn props (valueRaw props).

(** The locals of the drag handler, in the order the handler computes
    them. *)
Definition diff01 (delta : Delta) : number :=
  let diff01 := 0 in
  let diff01 := diff01 + fst delta * dragSensitivity props in
  let diff01 := diff01 + snd delta * - dragSensitivity props in
  diff01.

Definition value01 : number :=
  mapTo01_ (valueRaw props) (valueMin props) (valueMax props).

Definition newValue01 (delta : Delta) : number :=
  clamp01 (value01 + diff01 delta).

Definition newValueRaw (delta : Delta) : number :=
  clamp
    (mapFrom01_ (newValue01 delta) (valueMin props) (valueMax props))
    (valueMin props)
    (valueMax props).

(** The function given to [useDrag]. *)
Definition dragHandler (delta : Delta) : Owner -> Owner :=
  onValueRawChange props (newValueRaw delta).

Definition dragConfig : DragConfig := {|
  pointer_keys := false;
  drag_axis := getDragAxis (orientation props) axis_;
  enabled := negb disabled_
|}.

Definition bindDrag : Delta -> Owner -> Owner :=
  useDrag dragHandler dragConfig.

(** The rendered [div].  The props type removes every attribute listed
    here from the rest props, so the merged rest props cannot replace
    them. *)
Record KnobElement : Type := {
  role : string;
  aria_valuenow : number;
  aria_valuemin : number;
  aria_valuemax : number;
  aria_orientation : option Orientation;
  aria_valuetext : string;
  tabIndex : Z;
  touchAction : string;
  (** [onPointerDown] focuses the element unless disabled. *)
  focusOnPointerDown : bool;
  aria_disabled : option bool;
  data_disabled : option bool;
  (** The gesture binding: one movement frame. *)
  onDragFrame : Delta -> Owner -> Owner
}.

Definition render : KnobElement := {|
  role := "slider";
  aria_valuenow := value;
  aria_valuemin := valueMin props;
  aria_valuemax := valueMax props;
  aria_orientation := getAriaOrientation (orientation props) axis_;
  aria_valuetext := valueRawDisplayFn props (valueRaw props);
  tabIndex := getTabIndex includeIntoTabOrder_ disabled_;
  touchAction := "none";
  focusOnPointerDown := negb disabled_;
  aria_disabled := if disabled_ then Some true else None;
  data_disabled := if disabled_ then Some true else None;
  onDragFrame := bindDrag
|}.

End Render.

(** The props with another rounding function, everything else kept. *)
Definition withRoundFn (f : number -> number) (p : KnobHeadlessProps)
  : KnobHeadlessProps := {|
  valueRaw := valueRaw p;
  valueMin := valueMin p;
  valueMax := valueMax p;
  dragSensitivity := dragSensitivity p;
  valueRawRoundFn := f;
  valueRawDisplayFn := valueRawDisplayFn p;
  onValueRawChange := onValueRawChange p;
  orientation := orientation p;
  axis := axis p;
  includeIntoTabOrder := includeIntoTabOrder p;
  disabled := disabled p;
  mapTo01 := mapTo01 p;
  mapFrom01 := mapFrom01 p
|}.


End Component.

End KnobHeadless.

(** ** utils/math/NormalisableRange *)

Module NormalisableRange.
Import DspMath.

(** Modelled from the spec: the class [NormalisableRange] of the
    documentation site ([@/utils/math/NormalisableRange], constructed in
    the source as [new NormalisableRange(valueMin, valueMax, 1000)]) is
    not among the source files.  The spec describes it as a curve with a
    [center] raw value mapping to position [0.5], made of two independent
    linear segments, [[min, center] -> [0, 0.5]] and
    [[center, max] -> [0.5, 1]]. *)
Record t : Type := make {
  min : number;
  max : number;
  center : number
}.

(** Modelled from the spec: [mapTo01] of the missing class.  Each branch
    is one linear segment: the linear normaliser of the raw interval
    followed by the linear map onto the interval of positions. *)
Definition mapTo01 (r : t) (x : number) : number :=
  if Qclt_le_dec (center r) x
  then mapFrom01Linear (mapTo01Linear x (center r) (max r)) half 1
  else mapFrom01Linear (mapTo01Linear x (min r) (center r)) 0 half.

(** Modelled from the spec: [mapFrom01] of the missing class, the same two
    segments read from positions to raw values. *)
Definition mapFrom01 (r : t) (x : number) : number :=
  if Qclt_le_dec half x
  then mapFrom01Linear (mapTo01Linear x half 1) (center r) (max r)
  else mapFrom01Linear (mapTo01Linear x 0 half) (min r) (center r).

End NormalisableRange.

(** ** [Number.prototype.toFixed] *)

Module JsNumber.

Local Open Scope string_scope.

Fixpoint zeros (n : nat) : string :=
  match n with
  | O => EmptyString
  | S k => String "0"%char (zeros k)
  end.

(** The decimal digits of a non-negative integer; the digit 0 for zero. *)
Definition digits (n : Z) : string :=
  NilZero.string_of_uint (N.to_uint (Z.to_N n)).

(** The digits [m] of [n] with the decimal point placed [f] digits from
    the right, padded with zeros on the left up to [f + 1] digits. *)
Definition placePoint (m : string) (f : nat) : string :=
  match f with
  | O => m
  | S _ =>
      let k := String.length m in
      let m := if (k <=? f)%nat then zeros (f + 1 - k) ++ m else m in
      let k := if (k <=? f)%nat then (f + 1)%nat else k in
      let a := substring 0 (k - f) m in
      let b := substring (k - f) f m in
      a ++ "." ++ b
  end.

(** [x.toFixed(fractionDigits)] for a finite [x], as ECMAScript defines
    it: the sign is split off, [n] is the integer for which
    [n / 10^f - x] is closest to zero (the larger one on a tie), and its
    digits get the decimal point.  For a magnitude of [10^21] and more
    ECMAScript returns [Number::toString(x)], which is the parameter
    [Number_toString]. *)
Definition toFixed (Number_toString : number -> string) (x : number)
    (fractionDigits : nat) : string :=
  let f := fractionDigits in
  let s := if Qclt_le_dec x 0 then "-" else EmptyString in
  let x := if Qclt_le_dec x 0 then (- x)%Qc else x in
  let m :=
    if Qclt_le_dec x (of_Z (10 ^ 21))
    then
      let n := Qfloor (x * of_Z (10 ^ Z.of_nat f) + half)%Qc in
      placePoint (digits n) f
    else Number_toString x in
  s ++ m.

End JsNumber.

(** ** The [KnobDisabled] demo knob *)

Module KnobDisabled.

Definition valueMin : number := of_Z 20.
Definition valueMax : number := of_Z 20000.
Definition valueDefault : number := of_Z 440.

Definition stepFn (valueRaw : number) : number :=
  if Qclt_le_dec valueRaw (of_Z 100) then of_Z 1
  else if Qclt_le_dec valueRaw (of_Z 1000) then of_Z 10
  else of_Z 100.

Definition stepLargerFn (valueRaw : number) : number :=
  stepFn valueRaw * of_Z 10.

Definition valueRawRoundFn (x : number) : number := x.

Definition normalisableRange : NormalisableRange.t :=
  NormalisableRange.make valueMin valueMax (of_Z 1000).

Definition mapTo01 (x : number) : number :=
  NormalisableRange.mapTo01 normalisableRange x.

Definition mapFrom01 (x : number) : number :=
  NormalisableRange.mapFrom01 normalisableRange x.

(** [valueRawDisplayFn]; the template literals append the unit.
    [Number_toString] is the parameter of [JsNumber.toFixed]. *)
Definition valueRawDisplayFn (Number_toString : number -> string)
    (hz : number) : string :=
  let toFixed := JsNumber.toFixed Number_toString in
  if Qclt_le_dec hz (of_Z 100) then (toFixed hz 1%nat ++ " Hz")%string
  else if Qclt_le_dec hz (of_Z 1000) then (toFixed hz 0%nat ++ " Hz")%string
  else
    let kHz := hz / of_Z 1000 in
    if Qclt_le_dec hz (of_Z 10000)
    then (toFixed kHz 2%nat ++ " kHz")%string
    else (toFixed kHz 1%nat ++ " kHz")%string.

End KnobDisabled.

(** ** KnobBaseThumb.tsx *)

Module KnobBaseThumb.
Import DspMath.

Definition angleMin : number := of_Z (-145).
Definition angleMax : number := of_Z 145.

(** The rotation of the thumb, in degrees. *)
Definition angle (value01 : number) : number :=
  mapFrom01Linear value01 angleMin angleMax.

End KnobBaseThumb.

(** ** The scenario of the worked example *)

Module Scenario.
Import KnobHeadless.

(** An owner that records every value it is called back with, most recent
    first. *)
Definition Log : Type := list number.

Definition record (newValueRaw : number) (log : Log) : Log :=
  newValueRaw :: log.

(** A frequency knob on [[20, 20000]] with the recommended sensitivity
    0.006, dragged along [y], linear curve, at raw value [raw]. *)
Definition propsAt (raw : number) : @KnobHeadlessProps Log := {|
  valueRaw := raw;
  valueMin := of_Z 20;
  valueMax := of_Z 20000;
  dragSensitivity := decimal 6 1000;
  valueRawRoundFn := KnobDisabled.valueRawRoundFn;
  valueRawDisplayFn := fun _ => "Hz"%string;
  onValueRawChange := record;
  orientation := None;
  axis := Some axis_y;
  includeIntoTabOrder := None;
  disabled := None;
  mapTo01 := None;
  mapFrom01 := None
|}.

(** The knob of the worked example, at 440. *)
Definition props : @KnobHeadlessProps Log := propsAt (of_Z 440).

(** The same knob, disabled and asked into the tab order. *)
Definition propsDisabled : @KnobHeadlessProps Log := {|
  valueRaw := of_Z 440;
  valueMin := of_Z 20;
  valueMax := of_Z 20000;
  dragSensitivity := decimal 6 1000;
  valueRawRoundFn := KnobDisabled.valueRawRoundFn;
  valueRawDisplayFn := fun _ => "Hz"%string;
  onValueRawChange := record;
  orientation := None;
  axis := Some axis_y;
  includeIntoTabOrder := Some true;
  disabled := Some true;
  mapTo01 := Some (fun x _ _ => KnobDisabled.mapTo01 x);
  mapFrom01 := Some (fun x _ _ => KnobDisabled.mapFrom01 x)
|}.

(** The frame of the worked example: ten pixels up. *)
Definition frame : Delta := (0, of_Z (-10)).

End Scenario.

(** * Properties *)

Import DspMath.

(** ** Order and arithmetic on numbers *)

(** Moves a goal or hypotheses on [Qc] to [Q], where [lra] applies. *)
Ltac to_Q :=
  unfold half, decimal, of_Z in *;
  unfold Qcle, Qclt, Qcdiv, Qcminus, Qcplus, Qcmult, Qcopp, Qcinv in *;
  cbn [this Q2Qc] in *;
  rewrite ?Qred_correct in *.

Ltac qc_lra :=
  try apply Qc_is_canon; to_Q; lra.

(** Splits on every comparison made by [Math_min], [Math_max]. *)
Ltac min_max_cases :=
  unfold clamp01, clamp, Math_max, Math_min in *;
  repeat match goal with
         | |- context [Qclt_le_dec ?a ?b] => destruct (Qclt_le_dec a b)
         | _ : context [Qclt_le_dec ?a ?b] |- _ => destruct (Qclt_le_dec a b)
         end.

Lemma clamp_bounds (x lo hi : number) :
  lo <= hi -> lo <= clamp x lo hi <= hi.
Proof. intros H. min_max_cases; split; qc_lra. Qed.

Lemma clamp_inside (x lo hi : number) :
  lo <= x <= hi -> clamp x lo hi = x.
Proof. intros [H1 H2]. min_max_cases; qc_lra. Qed.

Lemma clamp_below (x lo hi : number) :
  lo <= hi -> x <= lo -> clamp x lo hi = lo.
Proof. intros H1 H2. min_max_cases; qc_lra. Qed.

Lemma clamp_above (x lo hi : number) :
  lo <= hi -> hi <= x -> clamp x lo hi = hi.
Proof. intros H1 H2. min_max_cases; qc_lra. Qed.

Lemma clamp_monotone (x y lo hi : number) :
  x <= y -> clamp x lo hi <= clamp y lo hi.
Proof. intros H. min_max_cases; qc_lra. Qed.

Lemma Qcinv_pos (d : number) : 0 < d -> 0 < / d.
Proof.
  intros H. to_Q. now apply Qinv_lt_0_compat.
Qed.

Lemma Qcminus_pos (a b : number) : a < b -> 0 < b - a.
Proof. intros H. qc_lra. Qed.

Lemma Qcminus_apart (a b : number) : a < b -> b - a <> 0.
Proof.
  intros H E. apply Qcminus_pos in H. rewrite E in H.
  revert H. apply Qcle_not_lt, Qcle_refl.
Qed.

Lemma Qcdiv_monotone (a b d : number) :
  0 < d -> a <= b -> a / d <= b / d.
Proof.
  intros Hd Hab. unfold Qcdiv.
  apply Qcmult_le_compat_r; [exact Hab|].
  apply Qclt_le_weak, Qcinv_pos, Hd.
Qed.

Lemma Qcdiv_same (d : number) : d <> 0 -> d / d = 1.
Proof. intros H. now field. Qed.

Lemma Qcdiv_zero (d : number) : 0 / d = 0.
Proof. unfold Qcdiv. apply Qcmult_0_l. Qed.

(** A proportion of a positive length lies in [[0, 1]]. *)
Lemma proportion_bounds (x lo hi : number) :
  lo < hi -> lo <= x <= hi -> 0 <= (x - lo) / (hi - lo) <= 1.
Proof.
  intros Hlt [H1 H2].
  pose proof (Qcminus_pos _ _ Hlt) as Hd.
  split.
  - rewrite <- (Qcdiv_zero (hi - lo)).
    apply Qcdiv_monotone; [exact Hd | qc_lra].
  - rewrite <- (Qcdiv_same (hi - lo)) by now apply Qcminus_apart.
    apply Qcdiv_monotone; [exact Hd | qc_lra].
Qed.

(** ** The linear curve *)

Lemma mapTo01Linear_inside (x min max : number) :
  min <= x <= max -> mapTo01Linear x min max = (x - min) / (max - min).
Proof.
  intros H. unfold mapTo01Linear. now rewrite clamp_inside.
Qed.

Lemma mapTo01Linear_bounds (x min max : number) :
  min < max -> 0 <= mapTo01Linear x min max <= 1.
Proof.
  intros H. unfold mapTo01Linear.
  apply proportion_bounds; [exact H|].
  apply clamp_bounds, Qclt_le_weak, H.
Qed.

Lemma mapTo01Linear_monotone (x y min max : number) :
  min < max -> x <= y -> mapTo01Linear x min max <= mapTo01Linear y min max.
Proof.
  intros H Hxy. unfold mapTo01Linear.
  apply Qcdiv_monotone; [now apply Qcminus_pos|].
  pose proof (clamp_monotone x y min max Hxy). qc_lra.
Qed.

Lemma mapFrom01Linear_inside (x min max : number) :
  0 <= x <= 1 -> mapFrom01Linear x min max = min + x * (max - min).
Proof.
  intros H. unfold mapFrom01Linear, clamp01. now rewrite clamp_inside.
Qed.

Lemma mapFrom01Linear_bounds (x min max : number) :
  min <= max -> min <= mapFrom01Linear x min max <= max.
Proof.
  intros H. unfold mapFrom01Linear.
  assert (H01 : 0 <= clamp01 x <= 1) by (apply clamp_bounds; qc_lra).
  destruct H01 as [H0 H1].
  assert (Hd : 0 <= max - min) by qc_lra.
  pose proof (Qcmult_le_compat_r _ _ _ H0 Hd) as L.
  pose proof (Qcmult_le_compat_r _ _ _ H1 Hd) as U.
  rewrite Qcmult_0_l in L. rewrite Qcmult_1_l in U.
  set (t := clamp01 x * (max - min)) in *.
  split; qc_lra.
Qed.

Lemma mapFrom01Linear_monotone (x y min max : number) :
  min <= max -> x <= y ->
  mapFrom01Linear x min max <= mapFrom01Linear y min max.
Proof.
  intros H Hxy. unfold mapFrom01Linear.
  assert (Hd : 0 <= max - min) by qc_lra.
  pose proof (clamp_monotone x y 0 1 Hxy) as Hc. fold (clamp01 x) (clamp01 y) in Hc.
  pose proof (Qcmult_le_compat_r _ _ _ Hc Hd) as L.
  set (a := clamp01 x * (max - min)) in *.
  set (b := clamp01 y * (max - min)) in *.
  qc_lra.
Qed.

Lemma linear_round_trip_inside (r min max : number) :
  min < max -> min <= r <= max ->
  mapFrom01Linear (mapTo01Linear r min max) min max = r.
Proof.
  intros Hlt Hr.
  rewrite mapFrom01Linear_inside by now apply mapTo01Linear_bounds.
  rewrite mapTo01Linear_inside by exact Hr.
  unfold number. field. now apply Qcminus_apart.
Qed.

Lemma linear_round_trip_01 (p min max : number) :
  min < max -> 0 <= p <= 1 ->
  mapTo01Linear (mapFrom01Linear p min max) min max = p.
Proof.
  intros Hlt Hp.
  rewrite mapTo01Linear_inside
    by (apply mapFrom01Linear_bounds, Qclt_le_weak, Hlt).
  rewrite mapFrom01Linear_inside by exact Hp.
  unfold number. field. now apply Qcminus_apart.
Qed.

(** Decides a closed statement on numbers by evaluation. *)
Ltac by_evaluation :=
  try apply Qc_is_canon; vm_compute; first [reflexivity | discriminate].

(** ** The drag step *)

Import KnobHeadless.

Lemma diff01_eq {Owner : Type} (props : @KnobHeadlessProps Owner)
    (dx dy : number) :
  diff01 props (dx, dy)
  = dx * dragSensitivity props - dy * dragSensitivity props.
Proof. unfold diff01. cbn [fst snd]. unfold number. ring. Qed.

Lemma newValueRaw_bounds {Owner : Type} (props : @KnobHeadlessProps Owner)
    (delta : Delta) :
  valueMin props <= valueMax props ->
  valueMin props <= newValueRaw props delta <= valueMax props.
Proof. intros H. unfold newValueRaw. now apply clamp_bounds. Qed.

Lemma newValue01_bounds {Owner : Type} (props : @KnobHeadlessProps Owner)
    (delta : Delta) :
  0 <= newValue01 props delta <= 1.
Proof. unfold newValue01, clamp01. apply clamp_bounds. qc_lra. Qed.

Lemma bindDrag_disabled {Owner : Type} (props : @KnobHeadlessProps Owner)
    (movement : Delta) (owner : Owner) :
  disabled_ props = true -> bindDrag props movement owner = owner.
Proof.
  intros H. unfold bindDrag, useDrag, dragConfig. cbn [enabled].
  now rewrite H.
Qed.

Lemma bindDrag_enabled {Owner : Type} (props : @KnobHeadlessProps Owner)
    (movement : Delta) (owner : Owner) :
  disabled_ props = false ->
  bindDrag props movement owner
  = onValueRawChange props
      (newValueRaw props
         (lockDelta (getDragAxis (orientation props) (axis_ props)) movement))
      owner.
Proof.
  intros H. unfold bindDrag, useDrag, dragConfig, dragHandler.
  cbn [enabled drag_axis]. now rewrite H.
Qed.

(** C1.  Every drag frame of an enabled knob calls the owner back with
    [clamp(mapFrom01(clamp01(mapTo01(r, min, max) + cx*s - cy*s), min, max),
    min, max)], where [(cx, cy)] is the frame's movement [(dx, dy)]
    restricted to the configured axis: [(dx, 0)] on [x], [(0, dy)] on [y],
    [(dx, dy)] when both axes contribute.  The vertical component enters
    negated: with a positive sensitivity an upward movement ([dy < 0])
    contributes a positive amount.  The equation holds for every range, in
    particular for [min < max]. *)
Theorem drag_frame_reported_value {Owner : Type}
    (props : @KnobHeadlessProps Owner) (dx dy : number) (owner : Owner) :
  let r := valueRaw props in
  let min := valueMin props in
  let max := valueMax props in
  let s := dragSensitivity props in
  let mapTo01 := mapTo01_ props in
  let mapFrom01 := mapFrom01_ props in
  let c :=
    match getDragAxis (orientation props) (axis_ props) with
    | Some lock_x => (dx, 0)
    | Some lock_y => (0, dy)
    | None => (dx, dy)
    end in
  disabled_ props = false ->
  onDragFrame (render props) (dx, dy) owner
  = onValueRawChange props
      (clamp
         (mapFrom01
            (clamp01 (mapTo01 r min max + fst c * s - snd c * s)) min max)
         min max)
      owner
  /\ (0 < s -> dy < 0 -> 0 < diff01 props (0, dy)).
Proof.
  intros r min max s mapTo01 mapFrom01 c Hen. split.
  - cbn [onDragFrame render]. rewrite bindDrag_enabled by exact Hen.
    f_equal. unfold newValueRaw, newValue01, value01.
    fold r min max mapTo01 mapFrom01.
    replace (lockDelta (getDragAxis (orientation props) (axis_ props)) (dx, dy))
      with c
      by (subst c; now destruct (getDragAxis _ _) as [[]|]).
    rewrite (surjective_pairing c) at 1. rewrite diff01_eq. fold s.
    do 3 f_equal. unfold number. ring.
  - intros Hs Hdy. rewrite diff01_eq. fold s.
    assert (H : 0 * s < - dy * s)
      by (apply Qcmult_lt_compat_r; [exact Hs | qc_lra]).
    rewrite Qcmult_0_l in H.
    replace (0 * s - dy * s) with (- dy * s) by (unfold number; ring).
    exact H.
Qed.

Lemma drag_frame_reported_value_witness :
  disabled_ Scenario.props = false
  /\ onDragFrame (render Scenario.props) (of_Z 3, of_Z (-10)) []
     = [clamp
          (mapFrom01Linear
             (clamp01
                (mapTo01Linear (of_Z 440) (of_Z 20) (of_Z 20000)
                 + 0 * decimal 6 1000 - of_Z (-10) * decimal 6 1000))
             (of_Z 20) (of_Z 20000))
          (of_Z 20) (of_Z 20000)].
Proof.
  split; [reflexivity|].
  apply (drag_frame_reported_value Scenario.props (of_Z 3) (of_Z (-10)) []).
  reflexivity.
Defined.

(** C2.  A disabled knob is inert: no drag frame changes the owner's
    state, whatever the owner's callback is, so [onValueRawChange] is not
    called; and its [tabIndex] is -1 whatever [includeIntoTabOrder] is. *)
Theorem disabled_knob_is_inert {Owner : Type}
    (props : @KnobHeadlessProps Owner) :
  disabled_ props = true ->
  (forall (movement : Delta) (owner : Owner),
      onDragFrame (render props) movement owner = owner)
  /\ enabled (dragConfig props) = false
  /\ tabIndex (render props) = (-1)%Z
  /\ (forall includeIntoTabOrder : bool,
         getTabIndex includeIntoTabOrder true = (-1)%Z).
Proof.
  intros H. repeat split.
  - intros movement owner. cbn [onDragFrame render].
    now apply bindDrag_disabled.
  - cbn [enabled dragConfig]. now rewrite H.
  - cbn [tabIndex render]. now rewrite H.
Qed.

Lemma disabled_knob_is_inert_witness :
  disabled_ Scenario.propsDisabled = true
  /\ includeIntoTabOrder_ Scenario.propsDisabled = true
  /\ onDragFrame (render Scenario.propsDisabled) Scenario.frame [] = []
  /\ tabIndex (render Scenario.propsDisabled) = (-1)%Z.
Proof.
  destruct (disabled_knob_is_inert Scenario.propsDisabled eq_refl)
    as (Hframe & _ & Htab & _).
  split; [reflexivity|]. split; [reflexivity|].
  split; [exact (Hframe Scenario.frame []) | exact Htab].
Defined.

(** C3.  A provided [orientation] takes precedence over [axis]: the drag
    axis is [x] for [horizontal] and [y] for [vertical] whatever [axis] is,
    and [aria-orientation] is the [orientation] prop.  Without
    [orientation] and with axis [xy], [aria-orientation] is undefined and
    the drag axis is not locked.  The rendered element and the gesture
    options carry exactly these values. *)
Theorem orientation_takes_precedence :
  (forall a : Axis,
      getDragAxis (Some horizontal) a = Some lock_x
      /\ getDragAxis (Some vertical) a = Some lock_y)
  /\ (forall (o : Orientation) (a : Axis),
         getAriaOrientation (Some o) a = Some o)
  /\ getAriaOrientation None axis_xy = None
  /\ getDragAxis None axis_xy = None
  /\ (forall (Owner : Type) (props : @KnobHeadlessProps Owner),
         aria_orientation (render props)
         = getAriaOrientation (orientation props) (axis_ props)
         /\ drag_axis (dragConfig props)
            = getDragAxis (orientation props) (axis_ props)).
Proof.
  repeat split.
Qed.

(** C10.  Rounding does not feed back into the value pipeline:
    [aria-valuenow] is [valueRawRoundFn(valueRaw)], [aria-valuetext] is
    [valueRawDisplayFn] of the unrounded [valueRaw], and the value handed
    to [onValueRawChange] is the clamped new raw value computed from the
    unrounded [valueRaw]; replacing the rounding function by any other
    changes [aria-valuenow] only, never what a frame does to the owner. *)
Theorem rounding_never_feeds_back {Owner : Type}
    (props : @KnobHeadlessProps Owner) :
  aria_valuenow (render props) = valueRawRoundFn props (valueRaw props)
  /\ aria_valuetext (render props) = valueRawDisplayFn props (valueRaw props)
  /\ (forall (delta : Delta) (owner : Owner),
         dragHandler props delta owner
         = onValueRawChange props
             (clamp
                (mapFrom01_ props
                   (clamp01
                      (mapTo01_ props (valueRaw props) (valueMin props)
                         (valueMax props)
                       + diff01 props delta))
                   (valueMin props) (valueMax props))
                (valueMin props) (valueMax props))
             owner)
  /\ (forall (f : number -> number) (movement : Delta) (owner : Owner),
         onDragFrame (render (withRoundFn f props)) movement owner
         = onDragFrame (render props) movement owner)
  /\ (forall (f : number -> number) (delta : Delta),
         newValueRaw (withRoundFn f props) delta = newValueRaw props delta)
  /\ (forall f : number -> number,
         aria_valuenow (render (withRoundFn f props)) = f (valueRaw props)
         /\ aria_valuetext (render (withRoundFn f props))
            = aria_valuetext (render props)).
Proof.
  repeat split.
Qed.

(** C5.  With [min < max], the value a frame reports lies in
    [[min, max]], and the new normalized position lies in [[0, 1]]: from
    position 0 a negative [diff01] gives exactly 0, from position 1 a
    positive [diff01] gives exactly 1. *)
Theorem drag_step_range_invariant {Owner : Type}
    (props : @KnobHeadlessProps Owner) :
  valueMin props < valueMax props ->
  (forall delta : Delta,
      valueMin props <= newValueRaw props delta <= valueMax props)
  /\ (forall (movement : Delta) (owner : Owner),
         onDragFrame (render props) movement owner = owner
         \/ exists v : number,
              valueMin props <= v <= valueMax props
              /\ onDragFrame (render props) movement owner
                 = onValueRawChange props v owner)
  /\ (forall delta : Delta, 0 <= newValue01 props delta <= 1)
  /\ (forall delta : Delta,
         value01 props = 0 -> diff01 props delta < 0 ->
         newValue01 props delta = 0)
  /\ (forall delta : Delta,
         value01 props = 1 -> 0 < diff01 props delta ->
         newValue01 props delta = 1).
Proof.
  intros Hlt. apply Qclt_le_weak in Hlt.
  split; [|split; [|split; [|split]]].
  - intros delta. now apply newValueRaw_bounds.
  - intros movement owner. cbn [onDragFrame render].
    destruct (disabled_ props) eqn:Hd.
    + left. now apply bindDrag_disabled.
    + right. eexists. split; [|now apply bindDrag_enabled].
      now apply newValueRaw_bounds.
  - apply newValue01_bounds.
  - intros delta H0 Hneg. unfold newValue01, clamp01. rewrite H0.
    apply clamp_below; qc_lra.
  - intros delta H1 Hpos. unfold newValue01, clamp01. rewrite H1.
    apply clamp_above; qc_lra.
Qed.

Lemma drag_step_range_invariant_witness :
  (valueMin (Scenario.propsAt (of_Z 20))
   < valueMax (Scenario.propsAt (of_Z 20)))
  /\ newValue01 (Scenario.propsAt (of_Z 20)) (0, of_Z 10) = 0
  /\ newValue01 (Scenario.propsAt (of_Z 20000)) (0, of_Z (-10)) = 1
  /\ (of_Z 20 <= newValueRaw (Scenario.propsAt (of_Z 20)) (0, of_Z 10)
      <= of_Z 20000).
Proof.
  assert (Hlt : of_Z 20 < of_Z 20000) by by_evaluation.
  split; [exact Hlt|].
  destruct (drag_step_range_invariant (Scenario.propsAt (of_Z 20)) Hlt)
    as (Hraw & _ & _ & Hlow & _).
  destruct (drag_step_range_invariant (Scenario.propsAt (of_Z 20000)) Hlt)
    as (_ & _ & _ & _ & Hhigh).
  split; [apply Hlow; by_evaluation|].
  split; [apply Hhigh; by_evaluation|].
  apply Hraw.
Defined.

(** ** The linear curve *)

(** C4.  Round trip of the default linear curve: with [min < max], every
    raw value [r] in [[min, max]] is recovered exactly,
    [mapFrom01(mapTo01(r, min, max), min, max) = r]. *)
Theorem linear_round_trip (r min max : number) :
  min < max -> min <= r <= max ->
  mapFrom01Default (mapTo01Default r min max) min max = r.
Proof.
  intros Hlt Hr. unfold mapFrom01Default, mapTo01Default.
  now apply linear_round_trip_inside.
Qed.

Lemma linear_round_trip_witness :
  of_Z 20 < of_Z 20000
  /\ of_Z 20 <= of_Z 440 <= of_Z 20000
  /\ mapFrom01Default
       (mapTo01Default (of_Z 440) (of_Z 20) (of_Z 20000))
       (of_Z 20) (of_Z 20000)
     = of_Z 440.
Proof.
  assert (Hlt : of_Z 20 < of_Z 20000) by by_evaluation.
  assert (Hr : of_Z 20 <= of_Z 440 <= of_Z 20000)
    by (split; by_evaluation).
  split; [exact Hlt|]. split; [exact Hr|].
  exact (linear_round_trip (of_Z 440) (of_Z 20) (of_Z 20000) Hlt Hr).
Defined.

(** C6.  Boundary values of the linear normalizer: with [min < max],
    [mapTo01(min, min, max) = 0], [mapTo01(max, min, max) = 1], and
    [mapTo01(raw, min, max) = (raw - min) / (max - min)] for [raw] in
    [[min, max]]. *)
Theorem linear_boundary_values (min max : number) :
  min < max ->
  mapTo01Default min min max = 0
  /\ mapTo01Default max min max = 1
  /\ (forall raw : number,
         min <= raw <= max ->
         mapTo01Default raw min max = (raw - min) / (max - min)).
Proof.
  intros Hlt. pose proof (Qclt_le_weak _ _ Hlt) as Hle.
  unfold mapTo01Default. split; [|split].
  - rewrite mapTo01Linear_inside by (split; [apply Qcle_refl | exact Hle]).
    unfold number. field. now apply Qcminus_apart.
  - rewrite mapTo01Linear_inside by (split; [exact Hle | apply Qcle_refl]).
    unfold number. field. now apply Qcminus_apart.
  - intros raw Hr. now apply mapTo01Linear_inside.
Qed.

Lemma linear_boundary_values_witness :
  of_Z 20 < of_Z 20000
  /\ mapTo01Default (of_Z 20) (of_Z 20) (of_Z 20000) = 0
  /\ mapTo01Default (of_Z 20000) (of_Z 20) (of_Z 20000) = 1
  /\ mapTo01Default (of_Z 440) (of_Z 20) (of_Z 20000)
     = (of_Z 440 - of_Z 20) / (of_Z 20000 - of_Z 20).
Proof.
  assert (Hlt : of_Z 20 < of_Z 20000) by by_evaluation.
  destruct (linear_boundary_values (of_Z 20) (of_Z 20000) Hlt)
    as (Hmin & Hmax & Hin).
  split; [exact Hlt|]. split; [exact Hmin|]. split; [exact Hmax|].
  apply Hin. split; by_evaluation.
Defined.

(** C7.  The worked drag scenario: on [[20, 20000]] with the linear curve
    the raw value 440 sits at [(440 - 20) / (20000 - 20)], between 0.0210
    and 0.0211; with sensitivity 0.006 on axis [y] the frame
    [(dx, dy) = (0, -10)] gives [diff01 = 0.06], the new position lies
    between 0.0810 and 0.0811, and the one value reported, 1638.8, is
    greater than 440. *)
Theorem worked_drag_scenario :
  let p := Scenario.props in
  let frame := lockDelta (drag_axis (dragConfig p)) Scenario.frame in
  valueRaw p = of_Z 440
  /\ valueMin p = of_Z 20
  /\ valueMax p = of_Z 20000
  /\ dragSensitivity p = decimal 6 1000
  /\ drag_axis (dragConfig p) = Some lock_y
  /\ Scenario.frame = (0, of_Z (-10))
  /\ value01 p = (of_Z 440 - of_Z 20) / (of_Z 20000 - of_Z 20)
  /\ decimal 210 10000 <= value01 p < decimal 211 10000
  /\ diff01 p frame = decimal 6 100
  /\ diff01 p frame = - of_Z (-10) * decimal 6 1000
  /\ newValue01 p frame = value01 p + decimal 6 100
  /\ decimal 810 10000 <= newValue01 p frame < decimal 811 10000
  /\ onDragFrame (render p) Scenario.frame [] = [decimal 16388 10]
  /\ of_Z 440 < decimal 16388 10 <= of_Z 20000.
Proof.
  cbv zeta. repeat split; try by_evaluation.
  cbn [onDragFrame render]. rewrite bindDrag_enabled by reflexivity.
  unfold onValueRawChange, Scenario.props, Scenario.propsAt, Scenario.record.
  f_equal. by_evaluation.
Qed.

(** ** The thumb *)

(** C9.  Rotation of the thumb: for a position [pos01] in [[0, 1]] the
    angle is [angleMin + pos01 * (angleMax - angleMin)] with
    [angleMin = -145] and [angleMax = 145], so it lies in
    [[-145, 145]]. *)
Theorem thumb_rotation_angle (pos01 : number) :
  0 <= pos01 <= 1 ->
  KnobBaseThumb.angle pos01
  = KnobBaseThumb.angleMin
    + pos01 * (KnobBaseThumb.angleMax - KnobBaseThumb.angleMin)
  /\ KnobBaseThumb.angleMin = of_Z (-145)
  /\ KnobBaseThumb.angleMax = of_Z 145
  /\ of_Z (-145) <= KnobBaseThumb.angle pos01 <= of_Z 145.
Proof.
  intros H. unfold KnobBaseThumb.angle.
  split; [now apply mapFrom01Linear_inside|].
  split; [reflexivity|]. split; [reflexivity|].
  apply mapFrom01Linear_bounds. by_evaluation.
Qed.

Lemma thumb_rotation_angle_witness :
  0 <= half <= 1
  /\ KnobBaseThumb.angle half
     = of_Z (-145) + half * (of_Z 145 - of_Z (-145))
  /\ of_Z (-145) <= KnobBaseThumb.angle half <= of_Z 145.
Proof.
  assert (H : 0 <= half <= 1) by (split; by_evaluation).
  destruct (thumb_rotation_angle half H) as (Hangle & _ & _ & Hrange).
  split; [exact H|]. split; [exact Hangle | exact Hrange].
Defined.

(** ** The curve with a center *)

Section CenterCurve.

Variable r : NormalisableRange.t.

Let min := NormalisableRange.min r.
Let center := NormalisableRange.center r.
Let max := NormalisableRange.max r.

Hypothesis min_lt_center : min < center.
Hypothesis center_lt_max : center < max.

Lemma half_bounds : 0 < half /\ half < 1.
Proof. split; by_evaluation. Qed.

Lemma mapTo01_lower (x : number) :
  x <= center ->
  NormalisableRange.mapTo01 r x
  = mapFrom01Linear (mapTo01Linear x min center) 0 half.
Proof.
  intros H. unfold NormalisableRange.mapTo01. fold min center max.
  destruct (Qclt_le_dec center x) as [Hgt|_]; [|reflexivity].
  exfalso. revert Hgt. now apply Qcle_not_lt.
Qed.

Lemma mapTo01_upper (x : number) :
  center < x ->
  NormalisableRange.mapTo01 r x
  = mapFrom01Linear (mapTo01Linear x center max) half 1.
Proof.
  intros H. unfold NormalisableRange.mapTo01. fold min center max.
  destruct (Qclt_le_dec center x) as [_|Hle]; [reflexivity|].
  exfalso. revert H. now apply Qcle_not_lt.
Qed.

Lemma mapTo01_lower_bounds (x : number) :
  x <= center -> 0 <= NormalisableRange.mapTo01 r x <= half.
Proof.
  intros H. rewrite mapTo01_lower by exact H.
  apply mapFrom01Linear_bounds, Qclt_le_weak, half_bounds.
Qed.

Lemma mapTo01_upper_bounds (x : number) :
  center < x -> half <= NormalisableRange.mapTo01 r x <= 1.
Proof.
  intros H. rewrite mapTo01_upper by exact H.
  apply mapFrom01Linear_bounds, Qclt_le_weak, half_bounds.
Qed.

Lemma mapTo01_lower_formula (x : number) :
  min <= x <= center ->
  NormalisableRange.mapTo01 r x = (x - min) / (center - min) * half.
Proof.
  intros H. rewrite mapTo01_lower by apply H.
  rewrite mapFrom01Linear_inside
    by (now apply mapTo01Linear_bounds).
  rewrite mapTo01Linear_inside by exact H.
  set (t := (x - min) / (center - min)).
  replace (half - 0) with half by qc_lra.
  apply Qcplus_0_l.
Qed.

Lemma mapTo01_center : NormalisableRange.mapTo01 r center = half.
Proof.
  rewrite mapTo01_lower_formula
    by (split; [now apply Qclt_le_weak | apply Qcle_refl]).
  rewrite Qcdiv_same by now apply Qcminus_apart.
  apply Qcmult_1_l.
Qed.

Lemma mapTo01_upper_formula (x : number) :
  center <= x <= max ->
  NormalisableRange.mapTo01 r x
  = half + (x - center) / (max - center) * half.
Proof.
  intros [H1 H2]. destruct (Qcle_lt_or_eq _ _ H1) as [Hlt|Heq].
  - rewrite mapTo01_upper by exact Hlt.
    rewrite mapFrom01Linear_inside
      by (now apply mapTo01Linear_bounds).
    rewrite mapTo01Linear_inside by (now split).
    now replace (1 - half) with half by qc_lra.
  - subst x. rewrite mapTo01_center.
    replace (center - center) with (Q2Qc 0) by qc_lra.
    rewrite Qcdiv_zero, Qcmult_0_l. symmetry. apply Qcplus_0_r.
Qed.

Lemma mapTo01_monotone (x y : number) :
  x <= y -> NormalisableRange.mapTo01 r x <= NormalisableRange.mapTo01 r y.
Proof.
  intros Hxy.
  destruct (Qclt_le_dec center x) as [Hx|Hx];
    destruct (Qclt_le_dec center y) as [Hy|Hy].
  - rewrite !mapTo01_upper by assumption.
    apply mapFrom01Linear_monotone; [apply Qclt_le_weak, half_bounds|].
    now apply mapTo01Linear_monotone.
  - exfalso. apply (Qclt_not_le _ _ Hx). now apply Qcle_trans with y.
  - apply Qcle_trans with half.
    + now apply mapTo01_lower_bounds.
    + now apply mapTo01_upper_bounds.
  - rewrite !mapTo01_lower by assumption.
    apply mapFrom01Linear_monotone; [apply Qclt_le_weak, half_bounds|].
    now apply mapTo01Linear_monotone.
Qed.

Lemma mapFrom01_lower (p : number) :
  p <= half ->
  NormalisableRange.mapFrom01 r p
  = mapFrom01Linear (mapTo01Linear p 0 half) min center.
Proof.
  intros H. unfold NormalisableRange.mapFrom01. fold min center max.
  destruct (Qclt_le_dec half p) as [Hgt|_]; [|reflexivity].
  exfalso. revert Hgt. now apply Qcle_not_lt.
Qed.

Lemma mapFrom01_upper (p : number) :
  half < p ->
  NormalisableRange.mapFrom01 r p
  = mapFrom01Linear (mapTo01Linear p half 1) center max.
Proof.
  intros H. unfold NormalisableRange.mapFrom01. fold min center max.
  destruct (Qclt_le_dec half p) as [_|Hle]; [reflexivity|].
  exfalso. revert H. now apply Qcle_not_lt.
Qed.

Lemma mapFrom01_monotone (p q : number) :
  p <= q ->
  NormalisableRange.mapFrom01 r p <= NormalisableRange.mapFrom01 r q.
Proof.
  intros Hpq.
  pose proof (Qclt_le_weak _ _ min_lt_center) as Hlo.
  pose proof (Qclt_le_weak _ _ center_lt_max) as Hhi.
  destruct (Qclt_le_dec half p) as [Hp|Hp];
    destruct (Qclt_le_dec half q) as [Hq|Hq].
  - rewrite !mapFrom01_upper by assumption.
    apply mapFrom01Linear_monotone; [exact Hhi|].
    apply mapTo01Linear_monotone; [apply half_bounds | exact Hpq].
  - exfalso. apply (Qclt_not_le _ _ Hp). now apply Qcle_trans with q.
  - rewrite mapFrom01_lower, mapFrom01_upper by assumption.
    apply Qcle_trans with center; now apply mapFrom01Linear_bounds.
  - rewrite !mapFrom01_lower by assumption.
    apply mapFrom01Linear_monotone; [exact Hlo|].
    apply mapTo01Linear_monotone; [apply half_bounds | exact Hpq].
Qed.

Lemma round_trip_lower (x : number) :
  min <= x <= center ->
  NormalisableRange.mapFrom01 r (NormalisableRange.mapTo01 r x) = x.
Proof.
  intros H.
  rewrite mapFrom01_lower by (apply mapTo01_lower_bounds, H).
  rewrite mapTo01_lower by apply H.
  rewrite linear_round_trip_01
    by (apply half_bounds || now apply mapTo01Linear_bounds).
  now apply linear_round_trip_inside.
Qed.

Lemma round_trip_upper (x : number) :
  center <= x <= max ->
  NormalisableRange.mapFrom01 r (NormalisableRange.mapTo01 r x) = x.
Proof.
  intros [H1 H2]. destruct (Qcle_lt_or_eq _ _ H1) as [Hlt|Heq].
  - assert (Hback :
      mapFrom01Linear
        (mapTo01Linear (NormalisableRange.mapTo01 r x) half 1) center max
      = x).
    { rewrite mapTo01_upper by exact Hlt.
      rewrite linear_round_trip_01
        by (apply half_bounds || now apply mapTo01Linear_bounds).
      now apply linear_round_trip_inside. }
    destruct (Qclt_le_dec half (NormalisableRange.mapTo01 r x)) as [Hp|Hp].
    + now rewrite mapFrom01_upper.
    + (* the position is [half], so [x] is the center *)
      exfalso.
      assert (Hhalf : NormalisableRange.mapTo01 r x = half)
        by (apply Qcle_antisym;
            [exact Hp | now apply mapTo01_upper_bounds]).
      rewrite Hhalf in Hback.
      rewrite mapTo01Linear_inside in Hback
        by (split; [apply Qcle_refl | apply Qclt_le_weak, half_bounds]).
      replace (half - half) with (Q2Qc 0) in Hback by qc_lra.
      rewrite Qcdiv_zero in Hback.
      rewrite mapFrom01Linear_inside in Hback by (split; by_evaluation).
      rewrite Qcmult_0_l, Qcplus_0_r in Hback.
      apply (Qclt_not_eq _ _ Hlt). exact Hback.
  - subst x. apply round_trip_lower.
    split; [now apply Qclt_le_weak | apply Qcle_refl].
Qed.

End CenterCurve.

(** C8.  The curve with a center [c], [min < c < max]: [mapTo01] sends
    [c] to 0.5, [min] to 0 and [max] to 1; it is the linear segment
    [[min, c] -> [0, 0.5]] below the center and the linear segment
    [[c, max] -> [0.5, 1]] above it; both maps are monotone, on each
    segment and across them; and [mapFrom01(mapTo01(x)) = x] on each
    segment.  For the center 1000 on [[20, 20000]], [mapTo01(1000)] is
    0.5, [mapTo01(20)] is 0 and [mapTo01(20000)] is 1. *)
Theorem center_curve_two_segments (r : NormalisableRange.t) :
  let min := NormalisableRange.min r in
  let c := NormalisableRange.center r in
  let max := NormalisableRange.max r in
  let mapTo01 := NormalisableRange.mapTo01 r in
  let mapFrom01 := NormalisableRange.mapFrom01 r in
  min < c -> c < max ->
  (mapTo01 c = half /\ mapTo01 min = 0 /\ mapTo01 max = 1)
  /\ (forall x : number,
         min <= x <= c -> mapTo01 x = (x - min) / (c - min) * half)
  /\ (forall x : number,
         c <= x <= max -> mapTo01 x = half + (x - c) / (max - c) * half)
  /\ (forall x : number, min <= x <= c -> 0 <= mapTo01 x <= half)
  /\ (forall x : number, c <= x <= max -> half <= mapTo01 x <= 1)
  /\ (forall x y : number, x <= y -> mapTo01 x <= mapTo01 y)
  /\ (forall p q : number, p <= q -> mapFrom01 p <= mapFrom01 q)
  /\ (forall x : number, min <= x <= c -> mapFrom01 (mapTo01 x) = x)
  /\ (forall x : number, c <= x <= max -> mapFrom01 (mapTo01 x) = x)
  /\ (KnobDisabled.mapTo01 (of_Z 1000) = half
      /\ KnobDisabled.mapTo01 (of_Z 20) = 0
      /\ KnobDisabled.mapTo01 (of_Z 20000) = 1).
Proof.
  intros min c max mapTo01 mapFrom01 Hlo Hhi.
  pose proof (Qclt_le_weak _ _ Hlo) as Hlo'.
  pose proof (Qclt_le_weak _ _ Hhi) as Hhi'.
  assert (Hc : mapTo01 c = half) by now apply mapTo01_center.
  split; [split; [exact Hc | split]|].
  - subst mapTo01. rewrite mapTo01_lower_formula
      by (assumption || (split; [apply Qcle_refl | exact Hlo'])).
    fold min. replace (min - min) with (Q2Qc 0) by qc_lra.
    now rewrite Qcdiv_zero, Qcmult_0_l.
  - subst mapTo01. rewrite mapTo01_upper_formula
      by (assumption || (split; [exact Hhi' | apply Qcle_refl])).
    fold max c. rewrite Qcdiv_same by now apply Qcminus_apart.
    qc_lra.
  - split; [intros x Hx; now apply mapTo01_lower_formula|].
    split; [intros x Hx; now apply mapTo01_upper_formula|].
    split; [intros x Hx; apply mapTo01_lower_bounds, Hx|].
    split.
    { intros x [H1 H2]. destruct (Qcle_lt_or_eq _ _ H1) as [Hlt|Heq].
      - now apply mapTo01_upper_bounds.
      - subst x. rewrite Hc. split; [apply Qcle_refl|].
        apply Qclt_le_weak, half_bounds. }
    split; [intros x y Hxy; now apply mapTo01_monotone|].
    split; [intros p q Hpq; now apply mapFrom01_monotone|].
    split; [intros x Hx; now apply round_trip_lower|].
    split; [intros x Hx; now apply round_trip_upper|].
    repeat split; by_evaluation.
Qed.

Lemma center_curve_two_segments_witness :
  KnobDisabled.valueMin < of_Z 1000
  /\ of_Z 1000 < KnobDisabled.valueMax
  /\ KnobDisabled.mapTo01 (of_Z 1000) = half
  /\ KnobDisabled.mapFrom01 (KnobDisabled.mapTo01 (of_Z 440)) = of_Z 440
  /\ KnobDisabled.mapFrom01 (KnobDisabled.mapTo01 (of_Z 4400)) = of_Z 4400
  /\ KnobDisabled.mapTo01 (of_Z 440) <= KnobDisabled.mapTo01 (of_Z 4400).
Proof.
  assert (Hlo : KnobDisabled.valueMin < of_Z 1000) by by_evaluation.
  assert (Hhi : of_Z 1000 < KnobDisabled.valueMax) by by_evaluation.
  destruct (center_curve_two_segments KnobDisabled.normalisableRange Hlo Hhi)
    as ((Hc & _ & _) & _ & _ & _ & _ & Hmono & _ & Hrt1 & Hrt2 & _).
  split; [exact Hlo|]. split; [exact Hhi|]. split; [exact Hc|].
  split; [apply Hrt1; split; by_evaluation|].
  split; [apply Hrt2; split; by_evaluation|].
  apply Hmono. by_evaluation.
Defined.

(** * Further properties of the code *)

(** ** Axis, orientation and the disabled state *)

(** X1.  The orientation announced through [aria-orientation] always
    agrees with the axis the gesture is locked to: [horizontal] exactly
    when the lock is [x], [vertical] exactly when it is [y], and undefined
    exactly when the gesture is not locked. *)
Theorem aria_orientation_matches_drag_axis
    (o : option Orientation) (a : Axis) :
  (getAriaOrientation o a = Some horizontal <-> getDragAxis o a = Some lock_x)
  /\ (getAriaOrientation o a = Some vertical
      <-> getDragAxis o a = Some lock_y)
  /\ (getAriaOrientation o a = None <-> getDragAxis o a = None).
Proof.
  destruct o as [[]|], a; cbn; repeat split; intros H;
    solve [reflexivity | discriminate H].
Qed.

(** X2.  Everything the rendered element says about being disabled is
    consistent: the gesture binding is enabled exactly when a pointer-down
    focuses the element; [aria-disabled] and [data-disabled] are the same
    and are set exactly when the binding is inert; [tabIndex] is 0 or -1,
    and it is 0 exactly when [includeIntoTabOrder] is passed as true and
    [disabled] is not, so an element in the tab order is never inert. *)
Theorem disabled_state_is_consistent {Owner : Type}
    (props : @KnobHeadlessProps Owner) :
  enabled (dragConfig props) = focusOnPointerDown (render props)
  /\ data_disabled (render props) = aria_disabled (render props)
  /\ (aria_disabled (render props) = Some true
      <-> enabled (dragConfig props) = false)
  /\ (aria_disabled (render props) = None
      <-> enabled (dragConfig props) = true)
  /\ (tabIndex (render props) = 0%Z \/ tabIndex (render props) = (-1)%Z)
  /\ (tabIndex (render props) = 0%Z
      <-> includeIntoTabOrder props = Some true
          /\ disabled props <> Some true)
  /\ (tabIndex (render props) = 0%Z -> enabled (dragConfig props) = true).
Proof.
  cbn [enabled dragConfig focusOnPointerDown data_disabled aria_disabled
       tabIndex render].
  unfold disabled_, includeIntoTabOrder_, getTabIndex, orDefault,
    disabledDefault, includeIntoTabOrderDefault.
  destruct (disabled props) as [[]|], (includeIntoTabOrder props) as [[]|];
    cbn; repeat split; try tauto; try congruence;
    try (intros [H1 H2]; congruence);
    try (intros H; discriminate H).
Qed.

(** ** The drag step for any curve *)

Lemma diff01_monotone {Owner : Type} (props : @KnobHeadlessProps Owner)
    (dx dx' dy dy' : number) :
  0 <= dragSensitivity props -> dx <= dx' -> dy' <= dy ->
  diff01 props (dx, dy) <= diff01 props (dx', dy').
Proof.
  intros Hs Hx Hy. rewrite !diff01_eq.
  pose proof (Qcmult_le_compat_r _ _ _ Hx Hs) as Ex.
  pose proof (Qcmult_le_compat_r _ _ _ Hy Hs) as Ey.
  set (s := dragSensitivity props) in *.
  set (a := dx * s) in *. set (a' := dx' * s) in *.
  set (b := dy * s) in *. set (b' := dy' * s) in *.
  qc_lra.
Qed.

(** X3.  A frame without effective movement reports the current value
    unchanged, provided the current value lies in the range, its position
    lies in [[0, 1]] and the curve maps that position back to it.  This
    covers the still frame [(0, 0)] and, since the two components enter
    with opposite signs, every diagonal frame [(d, d)]. *)
Theorem still_frame_reports_current_value {Owner : Type}
    (props : @KnobHeadlessProps Owner) :
  valueMin props <= valueRaw props <= valueMax props ->
  0 <= value01 props <= 1 ->
  mapFrom01_ props (value01 props) (valueMin props) (valueMax props)
  = valueRaw props ->
  (forall delta : Delta,
      diff01 props delta = 0 -> newValueRaw props delta = valueRaw props)
  /\ newValueRaw props (0, 0) = valueRaw props
  /\ (forall d : number, newValueRaw props (d, d) = valueRaw props).
Proof.
  intros Hr H01 Hback.
  assert (Hstill : forall delta : Delta,
             diff01 props delta = 0 ->
             newValueRaw props delta = valueRaw props).
  { intros delta Hd. unfold newValueRaw, newValue01, clamp01.
    rewrite Hd, Qcplus_0_r, (clamp_inside _ _ _ H01), Hback.
    now apply clamp_inside. }
  split; [exact Hstill|]. split.
  - apply Hstill. rewrite diff01_eq. unfold number. ring.
  - intros d. apply Hstill. rewrite diff01_eq. unfold number. ring.
Qed.

Lemma still_frame_reports_current_value_witness :
  (valueMin Scenario.props <= valueRaw Scenario.props
   <= valueMax Scenario.props)
  /\ 0 <= value01 Scenario.props <= 1
  /\ newValueRaw Scenario.props (0, 0) = of_Z 440
  /\ newValueRaw Scenario.props (of_Z 7, of_Z 7) = of_Z 440.
Proof.
  assert (Hr : valueMin Scenario.props <= valueRaw Scenario.props
               <= valueMax Scenario.props) by (split; by_evaluation).
  assert (H01 : 0 <= value01 Scenario.props <= 1) by (split; by_evaluation).
  assert (Hback :
    mapFrom01_ Scenario.props (value01 Scenario.props)
      (valueMin Scenario.props) (valueMax Scenario.props)
    = valueRaw Scenario.props) by by_evaluation.
  destruct (still_frame_reports_current_value Scenario.props Hr H01 Hback)
    as (_ & Hzero & Hdiag).
  split; [exact Hr|]. split; [exact H01|].
  split; [exact Hzero | exact (Hdiag (of_Z 7))].
Defined.

(** X4.  With a non-negative sensitivity and a curve whose [mapFrom01] is
    non-decreasing on [[0, 1]], the reported value is non-decreasing in
    the horizontal movement and non-increasing in the vertical one: moving
    further right or further up never reports a smaller value. *)
Theorem drag_is_monotone {Owner : Type} (props : @KnobHeadlessProps Owner) :
  0 <= dragSensitivity props ->
  (forall p q : number,
      0 <= p -> p <= q -> q <= 1 ->
      mapFrom01_ props p (valueMin props) (valueMax props)
      <= mapFrom01_ props q (valueMin props) (valueMax props)) ->
  forall dx dx' dy dy' : number,
    dx <= dx' -> dy' <= dy ->
    newValueRaw props (dx, dy) <= newValueRaw props (dx', dy').
Proof.
  intros Hs Hmono dx dx' dy dy' Hx Hy. unfold newValueRaw.
  apply clamp_monotone, Hmono.
  - apply newValue01_bounds.
  - unfold newValue01, clamp01. apply clamp_monotone.
    pose proof (diff01_monotone props dx dx' dy dy' Hs Hx Hy) as Hd.
    set (v := value01 props). set (a := diff01 props (dx, dy)) in *.
    set (b := diff01 props (dx', dy')) in *. qc_lra.
  - apply newValue01_bounds.
Qed.

Lemma drag_is_monotone_witness :
  0 <= dragSensitivity Scenario.props
  /\ newValueRaw Scenario.props (of_Z 3, of_Z 5)
     <= newValueRaw Scenario.props (of_Z 4, of_Z (-10)).
Proof.
  assert (Hs : 0 <= dragSensitivity Scenario.props) by by_evaluation.
  split; [exact Hs|].
  apply (drag_is_monotone Scenario.props Hs).
  - intros p q _ Hpq _. apply mapFrom01Linear_monotone; [by_evaluation|].
    exact Hpq.
  - by_evaluation.
  - by_evaluation.
Defined.

(** X5.  Full travel takes [1 / sensitivity] pixels: with a positive
    sensitivity, one frame that moves up or right by at least
    [1 / sensitivity] puts the position at 1 from any position that is not
    negative, and one frame that moves down or left by as much puts it at
    0 from any position that is not above 1; the reported value is then
    the clamped image of that end position. *)
Theorem full_travel_saturates {Owner : Type}
    (props : @KnobHeadlessProps Owner) :
  let s := dragSensitivity props in
  let min := valueMin props in
  let max := valueMax props in
  0 < s ->
  (0 <= value01 props ->
   forall d : number,
     / s <= d ->
     (newValue01 props (d, 0) = 1 /\ newValue01 props (0, - d) = 1)
     /\ newValueRaw props (d, 0) = clamp (mapFrom01_ props 1 min max) min max
     /\ newValueRaw props (0, - d)
        = clamp (mapFrom01_ props 1 min max) min max)
  /\ (value01 props <= 1 ->
      forall d : number,
        / s <= d ->
        (newValue01 props (- d, 0) = 0 /\ newValue01 props (0, d) = 0)
        /\ newValueRaw props (- d, 0)
           = clamp (mapFrom01_ props 0 min max) min max
        /\ newValueRaw props (0, d)
           = clamp (mapFrom01_ props 0 min max) min max).
Proof.
  intros s min max Hs.
  assert (Hone : forall d : number, / s <= d -> 1 <= d * s).
  { intros d Hd.
    pose proof (Qcmult_le_compat_r _ _ _ Hd (Qclt_le_weak _ _ Hs)) as H.
    rewrite Qcmult_inv_l in H; [exact H|].
    intros E. rewrite E in Hs. revert Hs. apply Qcle_not_lt, Qcle_refl. }
  split.
  - intros Hv d Hd. specialize (Hone d Hd).
    assert (Hup : forall delta : Delta,
               diff01 props delta = d * s -> newValue01 props delta = 1).
    { intros delta E. unfold newValue01, clamp01. rewrite E.
      apply clamp_above; [by_evaluation|].
      set (v := value01 props) in *. set (t := d * s) in *. qc_lra. }
    assert (E1 : diff01 props (d, 0) = d * s)
      by (rewrite diff01_eq; fold s; unfold number; ring).
    assert (E2 : diff01 props (0, - d) = d * s)
      by (rewrite diff01_eq; fold s; unfold number; ring).
    unfold newValueRaw. fold min max.
    rewrite (Hup _ E1), (Hup _ E2). repeat split.
  - intros Hv d Hd. specialize (Hone d Hd).
    assert (Hdown : forall delta : Delta,
               diff01 props delta = - (d * s) -> newValue01 props delta = 0).
    { intros delta E. unfold newValue01, clamp01. rewrite E.
      apply clamp_below; [by_evaluation|].
      set (v := value01 props) in *. set (t := d * s) in *. qc_lra. }
    assert (E1 : diff01 props (- d, 0) = - (d * s))
      by (rewrite diff01_eq; fold s; unfold number; ring).
    assert (E2 : diff01 props (0, d) = - (d * s))
      by (rewrite diff01_eq; fold s; unfold number; ring).
    unfold newValueRaw. fold min max.
    rewrite (Hdown _ E1), (Hdown _ E2). repeat split.
Qed.

Lemma full_travel_saturates_witness :
  0 < dragSensitivity Scenario.props
  /\ 0 <= value01 Scenario.props
  /\ / dragSensitivity Scenario.props <= of_Z 167
  /\ newValue01 Scenario.props (0, - of_Z 167) = 1
  /\ newValueRaw Scenario.props (0, - of_Z 167) = of_Z 20000.
Proof.
  assert (Hs : 0 < dragSensitivity Scenario.props) by by_evaluation.
  assert (Hv : 0 <= value01 Scenario.props) by by_evaluation.
  assert (Hd : / dragSensitivity Scenario.props <= of_Z 167)
    by by_evaluation.
  destruct (full_travel_saturates Scenario.props Hs) as (Hup & _).
  destruct (Hup Hv (of_Z 167) Hd) as ((_ & H1) & _ & H2).
  split; [exact Hs|]. split; [exact Hv|]. split; [exact Hd|].
  split; [exact H1|]. rewrite H2. by_evaluation.
Defined.

(** ** The drag step for the default linear curve *)

Lemma Math_min_scale (a b l : number) :
  0 < l -> Math_min a b * l = Math_min (a * l) (b * l).
Proof.
  intros Hl. unfold Math_min.
  destruct (Qclt_le_dec b a) as [H|H];
    destruct (Qclt_le_dec (b * l) (a * l)) as [H'|H']; try reflexivity.
  - exfalso. apply (Qclt_not_le _ _ (Qcmult_lt_compat_r _ _ _ Hl H)), H'.
  - exfalso. apply (Qclt_not_le _ _ H').
    apply Qcmult_le_compat_r; [exact H | now apply Qclt_le_weak].
Qed.

Lemma Math_max_scale (a b l : number) :
  0 < l -> Math_max a b * l = Math_max (a * l) (b * l).
Proof.
  intros Hl. unfold Math_max.
  destruct (Qclt_le_dec a b) as [H|H];
    destruct (Qclt_le_dec (a * l) (b * l)) as [H'|H']; try reflexivity.
  - exfalso. apply (Qclt_not_le _ _ (Qcmult_lt_compat_r _ _ _ Hl H)), H'.
  - exfalso. apply (Qclt_not_le _ _ H').
    apply Qcmult_le_compat_r; [exact H | now apply Qclt_le_weak].
Qed.

Lemma clamp_scale (x lo hi l : number) :
  0 < l -> clamp x lo hi * l = clamp (x * l) (lo * l) (hi * l).
Proof.
  intros Hl. unfold clamp.
  now rewrite Math_max_scale, Math_min_scale.
Qed.

Lemma clamp_shift (x lo hi c : number) :
  c + clamp x lo hi = clamp (c + x) (c + lo) (c + hi).
Proof. min_max_cases; qc_lra. Qed.

Lemma clamp_idempotent (x lo hi : number) :
  lo <= hi -> clamp (clamp x lo hi) lo hi = clamp x lo hi.
Proof. intros H. now apply clamp_inside, clamp_bounds. Qed.

(** One step through the linear curve, in raw units. *)
Lemma linear_step (r d min max : number) :
  min < max -> min <= r <= max ->
  mapFrom01Linear (clamp01 (mapTo01Linear r min max + d)) min max
  = clamp (r + d * (max - min)) min max.
Proof.
  intros Hlt Hr. unfold mapFrom01Linear.
  unfold clamp01. rewrite clamp_idempotent by by_evaluation.
  rewrite clamp_scale by now apply Qcminus_pos.
  rewrite clamp_shift, mapTo01Linear_inside by exact Hr.
  pose proof (Qcminus_apart _ _ Hlt) as Hne.
  f_equal; unfold number; field; exact Hne.
Qed.

Lemma newValueRaw_linear {Owner : Type} (props : @KnobHeadlessProps Owner)
    (delta : Delta) :
  mapTo01 props = None -> mapFrom01 props = None ->
  valueMin props < valueMax props ->
  valueMin props <= valueRaw props <= valueMax props ->
  newValueRaw props delta
  = clamp
      (valueRaw props + diff01 props delta * (valueMax props - valueMin props))
      (valueMin props) (valueMax props).
Proof.
  intros Hto Hfrom Hlt Hr.
  unfold newValueRaw, newValue01, value01, mapTo01_, mapFrom01_.
  rewrite Hto, Hfrom. cbn [orDefault].
  unfold mapTo01Default, mapFrom01Default.
  rewrite linear_step by assumption.
  now apply clamp_idempotent, Qclt_le_weak.
Qed.

(** X6.  With the default curve the drag step is linear in raw units: for
    [min < max] and a current value in the range, the reported value is
    the current value plus [diff01 * (max - min)], clamped to the range.
    A movement of one pixel therefore changes the value by
    [sensitivity * (max - min)] until the range ends. *)
Theorem default_curve_drag_is_linear {Owner : Type}
    (props : @KnobHeadlessProps Owner) :
  let r := valueRaw props in
  let min := valueMin props in
  let max := valueMax props in
  let s := dragSensitivity props in
  mapTo01 props = None -> mapFrom01 props = None ->
  min < max -> min <= r <= max ->
  forall dx dy : number,
    newValueRaw props (dx, dy)
    = clamp (r + (dx * s - dy * s) * (max - min)) min max.
Proof.
  intros r min max s Hto Hfrom Hlt Hr dx dy.
  rewrite newValueRaw_linear by assumption.
  now rewrite diff01_eq.
Qed.

Lemma default_curve_drag_is_linear_witness :
  mapTo01 Scenario.props = None
  /\ mapFrom01 Scenario.props = None
  /\ of_Z 20 < of_Z 20000
  /\ of_Z 20 <= of_Z 440 <= of_Z 20000
  /\ newValueRaw Scenario.props (0, of_Z (-10))
     = clamp
         (of_Z 440
          + (0 * decimal 6 1000 - of_Z (-10) * decimal 6 1000)
            * (of_Z 20000 - of_Z 20))
         (of_Z 20) (of_Z 20000).
Proof.
  assert (Hlt : of_Z 20 < of_Z 20000) by by_evaluation.
  assert (Hr : of_Z 20 <= of_Z 440 <= of_Z 20000) by (split; by_evaluation).
  split; [reflexivity|]. split; [reflexivity|].
  split; [exact Hlt|]. split; [exact Hr|].
  exact (default_curve_drag_is_linear Scenario.props eq_refl eq_refl Hlt Hr
           0 (of_Z (-10))).
Defined.



(** ** The steps of the demo knob *)

(** As [qc_lra], with integer constants made literal. *)
Ltac qc_lra_Z :=
  try apply Qc_is_canon; to_Q; unfold inject_Z in *;
  change (/ (1000 # 1))%Q with (1 # 1000)%Q in *; lra.

(** X8.  The keyboard steps follow the decades: [stepFn] only returns 1,
    10 or 100 and never decreases when the value grows; the larger step
    is never more than the value itself once the value is at least 10,
    and for a value below 10000 it is more than a tenth of it. *)
Theorem stepFn_follows_decades :
  (forall v : number,
      KnobDisabled.stepFn v = of_Z 1
      \/ KnobDisabled.stepFn v = of_Z 10
      \/ KnobDisabled.stepFn v = of_Z 100)
  /\ (forall v w : number,
         v <= w -> KnobDisabled.stepFn v <= KnobDisabled.stepFn w)
  /\ (forall v : number,
         of_Z 10 <= v -> KnobDisabled.stepLargerFn v <= v)
  /\ (forall v : number,
         v < of_Z 10000 -> v < KnobDisabled.stepLargerFn v * of_Z 10).
Proof.
  unfold KnobDisabled.stepLargerFn, KnobDisabled.stepFn.
  split; [|split; [|split]].
  - intros v.
    destruct (Qclt_le_dec v (of_Z 100)); [now left|].
    destruct (Qclt_le_dec v (of_Z 1000)); [right; now left|].
    right; now right.
  - intros v w H.
    destruct (Qclt_le_dec v (of_Z 100));
      destruct (Qclt_le_dec w (of_Z 100));
      destruct (Qclt_le_dec v (of_Z 1000));
      destruct (Qclt_le_dec w (of_Z 1000));
      try by_evaluation; exfalso; qc_lra_Z.
  - intros v H.
    destruct (Qclt_le_dec v (of_Z 100));
      destruct (Qclt_le_dec v (of_Z 1000)); qc_lra_Z.
  - intros v H.
    destruct (Qclt_le_dec v (of_Z 100));
      destruct (Qclt_le_dec v (of_Z 1000)); qc_lra_Z.
Qed.

(** ** The text of the demo knob *)

Lemma Qfloor_of_bounds (q : Q) (z : Z) :
  (inject_Z z <= q)%Q -> (q < inject_Z z + 1)%Q -> Qfloor q = z.
Proof.
  intros Hlo Hhi. change 1%Q with (inject_Z 1) in Hhi.
  rewrite <- inject_Z_plus in Hhi.
  pose proof (Qfloor_le q) as Hfl. pose proof (Qlt_floor q) as Hlt.
  assert (H1 : (inject_Z z < inject_Z (Qfloor q + 1))%Q)
    by (eapply Qle_lt_trans; eassumption).
  assert (H2 : (inject_Z (Qfloor q) < inject_Z (z + 1))%Q)
    by (eapply Qle_lt_trans; eassumption).
  rewrite <- Zlt_Qlt in H1, H2. lia.
Qed.

Lemma of_Z_lt (a b : Z) : (a < b)%Z -> of_Z a < of_Z b.
Proof.
  intros H. unfold of_Z, Qclt. cbn [this Q2Qc].
  rewrite !Qred_correct. now rewrite <- Zlt_Qlt.
Qed.

Lemma of_Z_le (a b : Z) : (a <= b)%Z -> of_Z a <= of_Z b.
Proof.
  intros H. unfold of_Z, Qcle. cbn [this Q2Qc].
  rewrite !Qred_correct. now rewrite <- Zle_Qle.
Qed.

(** [toFixed] of a non-negative number below [10^21], given the integer
    [n] nearest to [x * 10^f]. *)
Lemma toFixed_nearest (Number_toString : number -> string) (x : number)
    (f : nat) (n : Z) :
  0 <= x -> x < of_Z (10 ^ 21) ->
  (inject_Z n <= this (x * of_Z (10 ^ Z.of_nat f) + half))%Q ->
  (this (x * of_Z (10 ^ Z.of_nat f) + half) < inject_Z n + 1)%Q ->
  JsNumber.toFixed Number_toString x f
  = JsNumber.placePoint (JsNumber.digits n) f.
Proof.
  intros H0 Hbig Hlo Hhi. unfold JsNumber.toFixed.
  destruct (Qclt_le_dec x 0) as [Hneg|_].
  { exfalso. revert Hneg. now apply Qcle_not_lt. }
  destruct (Qclt_le_dec x (of_Z (10 ^ 21))) as [_|Hge].
  - now rewrite (Qfloor_of_bounds _ n Hlo Hhi).
  - exfalso. revert Hbig. now apply Qcle_not_lt.
Qed.

(** [toFixed] of a negative number above [-10^21]. *)
Lemma toFixed_nearest_negative (Number_toString : number -> string)
    (x : number) (f : nat) (n : Z) :
  x < 0 -> - x < of_Z (10 ^ 21) ->
  (inject_Z n <= this (- x * of_Z (10 ^ Z.of_nat f) + half))%Q ->
  (this (- x * of_Z (10 ^ Z.of_nat f) + half) < inject_Z n + 1)%Q ->
  JsNumber.toFixed Number_toString x f
  = String "-" (JsNumber.placePoint (JsNumber.digits n) f).
Proof.
  intros H0 Hbig Hlo Hhi. unfold JsNumber.toFixed.
  destruct (Qclt_le_dec x 0) as [_|Hpos].
  2:{ exfalso. revert H0. now apply Qcle_not_lt. }
  destruct (Qclt_le_dec (- x) (of_Z (10 ^ 21))) as [_|Hge].
  - now rewrite (Qfloor_of_bounds _ n Hlo Hhi).
  - exfalso. revert Hbig. now apply Qcle_not_lt.
Qed.

Lemma below_toFixed_limit (x : number) (z : Z) :
  x < of_Z z -> (z <= 10 ^ 21)%Z -> x < of_Z (10 ^ 21).
Proof.
  intros H Hz. eapply Qclt_le_trans; [exact H|]. now apply of_Z_le.
Qed.

(** Bounds on [x * 10^f + 1/2] from linear bounds on [x]. *)
Ltac nearest_bounds :=
  cbv [Z.of_nat Pos.of_succ_nat Pos.succ Z.pow Z.pow_pos Pos.iter Z.mul
       Pos.mul Pos.add];
  to_Q; unfold inject_Z in *;
  change (/ (1000 # 1))%Q with (1 # 1000)%Q in *; lra.

(** The same for an integer [x] and no fraction digits. *)
Ltac integer_bounds :=
  cbv [Z.of_nat Z.pow]; to_Q;
  change (inject_Z 1) with 1%Q; lra.

(** X9.  The text switches unit and precision on the unrounded value, so
    rounding can carry it across a threshold: a frequency from 99.95 up to
    100 reads [100.0 Hz], one from 999.5 up to 1000 reads [1000 Hz] (not
    [1.00 kHz]), one from 9999.5 up to 10000 reads [10.00 kHz]; and a
    negative frequency above -0.05 reads [-0.0 Hz]. *)
Theorem display_rounds_across_thresholds
    (Number_toString : number -> string) (hz : number) :
  let display := KnobDisabled.valueRawDisplayFn Number_toString in
  (decimal 9995 100 <= hz -> hz < of_Z 100 ->
   display hz = "100.0 Hz"%string)
  /\ (decimal 9995 10 <= hz -> hz < of_Z 1000 ->
      display hz = "1000 Hz"%string)
  /\ (decimal 99995 10 <= hz -> hz < of_Z 10000 ->
      display hz = "10.00 kHz"%string)
  /\ (- decimal 5 100 < hz -> hz < 0 ->
      display hz = "-0.0 Hz"%string).
Proof.
  intros display. subst display. unfold KnobDisabled.valueRawDisplayFn.
  split; [|split; [|split]]; intros Hlo Hhi.
  - destruct (Qclt_le_dec hz (of_Z 100)) as [_|H]; [|exfalso; qc_lra_Z].
    rewrite (toFixed_nearest _ hz 1 1000); [reflexivity | qc_lra_Z | | |].
    + apply (below_toFixed_limit _ _ Hhi). discriminate.
    + nearest_bounds.
    + nearest_bounds.
  - destruct (Qclt_le_dec hz (of_Z 100)) as [H|_]; [exfalso; qc_lra_Z|].
    destruct (Qclt_le_dec hz (of_Z 1000)) as [_|H]; [|exfalso; qc_lra_Z].
    rewrite (toFixed_nearest _ hz 0 1000); [reflexivity | qc_lra_Z | | |].
    + apply (below_toFixed_limit _ _ Hhi). discriminate.
    + nearest_bounds.
    + nearest_bounds.
  - destruct (Qclt_le_dec hz (of_Z 100)) as [H|_]; [exfalso; qc_lra_Z|].
    destruct (Qclt_le_dec hz (of_Z 1000)) as [H|_]; [exfalso; qc_lra_Z|].
    destruct (Qclt_le_dec hz (of_Z 10000)) as [_|H]; [|exfalso; qc_lra_Z].
    rewrite (toFixed_nearest _ (hz / of_Z 1000) 2 1000);
      [reflexivity | qc_lra_Z | | |].
    + apply (below_toFixed_limit _ (10 ^ 21)); [|apply Z.le_refl].
      apply Qclt_trans with (of_Z 10); [qc_lra_Z | by_evaluation].
    + nearest_bounds.
    + nearest_bounds.
  - destruct (Qclt_le_dec hz (of_Z 100)) as [_|H]; [|exfalso; qc_lra_Z].
    rewrite (toFixed_nearest_negative _ hz 1 0); [reflexivity | exact Hhi | | |].
    + apply (below_toFixed_limit _ (10 ^ 21)); [|apply Z.le_refl].
      apply Qclt_trans with (of_Z 1); [qc_lra_Z | by_evaluation].
    + nearest_bounds.
    + nearest_bounds.
Qed.

Lemma display_rounds_across_thresholds_witness :
  decimal 9995 10 <= decimal 9996 10
  /\ decimal 9996 10 < of_Z 1000
  /\ KnobDisabled.valueRawDisplayFn (fun _ => "1e+21"%string)
       (decimal 9996 10)
     = "1000 Hz"%string.
Proof.
  assert (Hlo : decimal 9995 10 <= decimal 9996 10) by by_evaluation.
  assert (Hhi : decimal 9996 10 < of_Z 1000) by by_evaluation.
  destruct (display_rounds_across_thresholds (fun _ => "1e+21"%string)
              (decimal 9996 10)) as (_ & H & _).
  split; [exact Hlo|]. split; [exact Hhi | exact (H Hlo Hhi)].
Defined.

(** X10.  With no fraction digits [toFixed] prints an integer exactly: the
    digits of a non-negative integer below [10^21], a minus sign and the
    digits of its magnitude for a negative one above [-10^21].  So a whole
    frequency from 100 to 999 reads as its digits followed by [ Hz]. *)
Theorem toFixed_prints_integers
    (Number_toString : number -> string) (z : Z) :
  ((0 <= z < 10 ^ 21)%Z ->
   JsNumber.toFixed Number_toString (of_Z z) 0 = JsNumber.digits z)
  /\ ((- 10 ^ 21 < z < 0)%Z ->
      JsNumber.toFixed Number_toString (of_Z z) 0
      = String "-" (JsNumber.digits (- z)))
  /\ ((100 <= z < 1000)%Z ->
      KnobDisabled.valueRawDisplayFn Number_toString (of_Z z)
      = (JsNumber.digits z ++ " Hz")%string).
Proof.
  assert (Hpos : (0 <= z < 10 ^ 21)%Z ->
            JsNumber.toFixed Number_toString (of_Z z) 0 = JsNumber.digits z).
  { intros [H0 H1].
    rewrite (toFixed_nearest _ (of_Z z) 0 z); [reflexivity | | | |].
    - now apply (of_Z_le 0).
    - now apply of_Z_lt.
    - integer_bounds.
    - integer_bounds. }
  split; [exact Hpos|]. split.
  - intros [H0 H1].
    rewrite (toFixed_nearest_negative _ (of_Z z) 0 (- z)); [reflexivity | | | |].
    + now apply (of_Z_lt z 0).
    + replace (- of_Z z) with (of_Z (- z)).
      * apply of_Z_lt. lia.
      * apply Qc_is_canon. to_Q. rewrite inject_Z_opp. reflexivity.
    + rewrite inject_Z_opp. integer_bounds.
    + rewrite inject_Z_opp. integer_bounds.
  - intros [H0 H1]. unfold KnobDisabled.valueRawDisplayFn.
    destruct (Qclt_le_dec (of_Z z) (of_Z 100)) as [H|_].
    { exfalso. apply (Qclt_not_le _ _ H). now apply of_Z_le. }
    destruct (Qclt_le_dec (of_Z z) (of_Z 1000)) as [_|H].
    + rewrite Hpos; [reflexivity|]. split; [lia|].
      apply Z.lt_trans with 1000%Z; [exact H1 | reflexivity].
    + exfalso. apply (Qclt_not_le _ _ (of_Z_lt _ _ H1)), H.
Qed.

Lemma toFixed_prints_integers_witness :
  (100 <= 440 < 1000)%Z
  /\ KnobDisabled.valueRawDisplayFn (fun _ => "1e+21"%string) (of_Z 440)
     = "440 Hz"%string.
Proof.
  assert (H : (100 <= 440 < 1000)%Z) by lia.
  destruct (toFixed_prints_integers (fun _ => "1e+21"%string) 440)
    as (_ & _ & Hd).
  split; [exact H | exact (Hd H)].
Defined.

(** ** The sweep of the thumb *)

(** X11.  The dial is symmetric about the upright position: over
    positions in [[0, 1]] the angle never decreases, the mirrored position
    [1 - p] gives the opposite angle, the middle position gives 0 degrees,
    and the two ends are 290 degrees apart. *)
Theorem thumb_sweep_is_symmetric :
  (forall p q : number,
      0 <= p -> p <= q -> q <= 1 ->
      KnobBaseThumb.angle p <= KnobBaseThumb.angle q)
  /\ (forall p : number,
         0 <= p <= 1 ->
         KnobBaseThumb.angle (1 - p) = - KnobBaseThumb.angle p)
  /\ KnobBaseThumb.angle half = 0
  /\ KnobBaseThumb.angle 1 - KnobBaseThumb.angle 0 = of_Z 290.
Proof.
  split; [|split; [|split]].
  - intros p q H0 Hpq H1. unfold KnobBaseThumb.angle.
    apply mapFrom01Linear_monotone; [by_evaluation | exact Hpq].
  - intros p [H0 H1]. unfold KnobBaseThumb.angle.
    rewrite !mapFrom01Linear_inside by (split; qc_lra).
    unfold KnobBaseThumb.angleMin, KnobBaseThumb.angleMax. qc_lra_Z.
  - by_evaluation.
  - by_evaluation.
Qed.

Lemma thumb_sweep_is_symmetric_witness :
  0 <= decimal 1 4 <= 1
  /\ KnobBaseThumb.angle (1 - decimal 1 4)
     = - KnobBaseThumb.angle (decimal 1 4)
  /\ KnobBaseThumb.angle (decimal 1 4)
     <= KnobBaseThumb.angle (1 - decimal 1 4).
Proof.
  assert (H : 0 <= decimal 1 4 <= 1) by (split; by_evaluation).
  destruct thumb_sweep_is_symmetric as (Hmono & Hsym & _).
  split; [exact H|]. split; [exact (Hsym _ H)|].
  apply Hmono; by_evaluation.
Defined.
